(** * Content-example service: the tag codec, the record store, the
      suggestion provider and the API layer of [backend/],
      embedded as Rocq functions and checked against the specification. *)

From Stdlib Require Import ZArith QArith List String Ascii Bool Lia.
Import ListNotations.

Local Open Scope string_scope.
Local Open Scope list_scope.
Local Open Scope Z_scope.

(** ** Python strings

    A Python [str] is modelled as a [string]; the characters are the
    code points of the text (the codec and the provider only ever look
    for the comma and for white space). *)
Module PyStr.

Definition comma : ascii := ","%char.

(** [bool(s)] of a string: the empty string is falsy. *)
Definition truthy (s : string) : bool :=
  match s with
  | EmptyString => false
  | String _ _ => true
  end.

(** [sep.join(l)]. *)
Fixpoint join (sep : string) (l : list string) : string :=
  match l with
  | [] => ""
  | [x] => x
  | x :: rest => (x ++ sep ++ join sep rest)%string
  end.

(** [s.split(sep)] for a one-character separator: the pieces between
    the occurrences of [sep], left to right; a string without [sep]
    (the empty string too) gives one piece. *)
Fixpoint split (sep : ascii) (s : string) : list string :=
  match s with
  | EmptyString => [EmptyString]
  | String a r =>
      if Ascii.eqb a sep then EmptyString :: split sep r
      else match split sep r with
           | piece :: pieces => String a piece :: pieces
           | [] => [String a EmptyString]
           end
  end.

(** [c in s]. *)
Fixpoint contains (c : ascii) (s : string) : bool :=
  match s with
  | EmptyString => false
  | String a r => Ascii.eqb a c || contains c r
  end.

(** The characters [str.strip()] removes: [str.isspace] on the code
    points below 256. *)
Definition isspace (a : ascii) : bool :=
  let n := nat_of_ascii a in
  (((9 <=? n) && (n <=? 13)) || ((28 <=? n) && (n <=? 32))
   || (n =? 133) || (n =? 160))%nat.

Fixpoint lstrip (s : string) : string :=
  match s with
  | EmptyString => EmptyString
  | String a r => if isspace a then lstrip r else s
  end.

Fixpoint rstrip (s : string) : string :=
  match s with
  | EmptyString => EmptyString
  | String a r =>
      match rstrip r with
      | EmptyString => if isspace a then EmptyString else String a EmptyString
      | r' => String a r'
      end
  end.

(** [s.strip()]. *)
Definition strip (s : string) : string := rstrip (lstrip s).

End PyStr.

(** ** Tag codec (crud.py, lines 8-12)

    Both helpers test their argument for truth, so [None] is accepted
    next to a list (resp. a string): the argument is an [option]. *)

(** [bool(tags)] of an optional list: [None] and [[]] are falsy. *)
Definition truthy_list {A : Type} (l : option (list A)) : bool :=
  match l with
  | Some (_ :: _) => true
  | _ => false
  end.

(** [bool(s)] of an optional string: [None] and [""] are falsy. *)
Definition truthy_str (s : option string) : bool :=
  match s with
  | Some s => PyStr.truthy s
  | None => false
  end.

(** The value behind an optional argument once it is known to be truthy. *)
Definition the {A : Type} (dflt : A) (o : option A) : A :=
  match o with
  | Some a => a
  | None => dflt
  end.

Definition tags_to_str (tags : option (list string)) : string :=
  if truthy_list tags then PyStr.join "," (the [] tags) else "".

Definition str_to_tags (tags_str : option string) : list string :=
  if truthy_str tags_str then PyStr.split PyStr.comma (the "" tags_str) else [].

(** ** Values exchanged with the outside *)

(** A decoded JSON document; the objects of the OpenAI client are
    dictionaries whose keys can also be read as attributes. *)
#[warnings="-register-all"]
Inductive json : Type :=
| JNull
| JBool (b : bool)
| JNum (q : Q)
| JStr (s : string)
| JList (l : list json)
| JDict (d : list (string * json)).

(** The exceptions that can travel through the service. *)
Inductive exn : Type :=
| AttributeError
| IndexError
| KeyError
| TypeError
| JSONDecodeError
| RequestException (what : string)
| OpenAIError (what : string)
| InvalidRequestError
| HTTPException (status_code : Z) (detail : string).

Inductive result (A : Type) : Type :=
| Ok (a : A)
| Raise (e : exn).
Arguments Ok {A} a.
Arguments Raise {A} e.

Fixpoint assoc {A : Type} (k : string) (d : list (string * A)) : option A :=
  match d with
  | [] => None
  | (k', v) :: rest => if String.eqb k' k then Some v else assoc k rest
  end.

(** [o.name] *)
Definition getattr (o : json) (name : string) : result json :=
  match o with
  | JDict d => match assoc name d with
               | Some v => Ok v
               | None => Raise AttributeError
               end
  | _ => Raise AttributeError
  end.

(** [o[n]] for an integer [n] *)
Definition getitem_int (o : json) (n : nat) : result json :=
  match o with
  | JList l => match nth_error l n with
               | Some v => Ok v
               | None => Raise IndexError
               end
  | JStr s => match String.get n s with
              | Some c => Ok (JStr (String c EmptyString))
              | None => Raise IndexError
              end
  | JDict _ => Raise KeyError
  | _ => Raise TypeError
  end.

(** [o[k]] for a string [k] *)
Definition getitem_str (o : json) (k : string) : result json :=
  match o with
  | JDict d => match assoc k d with
               | Some v => Ok v
               | None => Raise KeyError
               end
  | _ => Raise TypeError
  end.

(** [o.split(",")]: only a string has the method. *)
Definition split_comma (o : json) : result (list string) :=
  match o with
  | JStr s => Ok (PyStr.split PyStr.comma s)
  | _ => Raise AttributeError
  end.

(** ** config.py *)
Record Config : Type := mkConfig {
  AI_PROVIDER : string;
  OPENAI_API_KEY : string;
  CLAUDE_API_KEY : string
}.

(** ** models.py: a row of [content_examples], also the state of the
    Python object mapped to it ([id] is [None] until the row is
    inserted). *)
Module models.
Record ContentExample : Type := Build {
  id : option Z;
  title : string;
  source_url : option string;
  content_snippet : string;
  notes : option string;
  tags : option string
}.

Definition set_id v (o : ContentExample) :=
  Build v (title o) (source_url o) (content_snippet o) (notes o) (tags o).
Definition set_title v (o : ContentExample) :=
  Build (id o) v (source_url o) (content_snippet o) (notes o) (tags o).
Definition set_source_url v (o : ContentExample) :=
  Build (id o) (title o) v (content_snippet o) (notes o) (tags o).
Definition set_content_snippet v (o : ContentExample) :=
  Build (id o) (title o) (source_url o) v (notes o) (tags o).
Definition set_notes v (o : ContentExample) :=
  Build (id o) (title o) (source_url o) (content_snippet o) v (tags o).
Definition set_tags v (o : ContentExample) :=
  Build (id o) (title o) (source_url o) (content_snippet o) (notes o) v.
End models.

(** ** schemas.py: the request payload *)
Module schemas.
Record ContentExampleCreate : Type := Build {
  title : string;
  source_url : option string;
  content_snippet : string;
  notes : option string;
  tags : option (list string)
}.
End schemas.

(** ** The outbound calls of the suggestion provider *)
Record ChatCompletion : Type := mkChatCompletion {
  api_key : string;
  model : string;
  messages : list (list (string * string));
  max_tokens : Z;
  temperature : Q
}.

Record Post : Type := mkPost {
  endpoint : string;
  headers : list (string * string);
  json_body : json
}.

(** What [requests.post] hands back: the status and what
    [response.json()] gives when it is asked to decode the body. *)
Record Response : Type := mkResponse {
  status_code : Z;
  json_ : result json
}.

Inductive Outbound : Type :=
| OpenAICall (c : ChatCompletion)
| HttpPost (p : Post).

(** ** The session and the world *)

(** The state of a mapped object in its session. *)
Inductive Status : Type :=
| Transient
| Pending
| Persistent
| Deleted
| Detached.

Definition Table : Type := list models.ContentExample.
Definition Object : Type := (Status * models.ContentExample)%type.

(** A reference to a Python object of the session. *)
Definition ref : Type := nat.

(** [table] is the committed content of [content_examples], in store
    order; [objects] are the Python objects of the current session
    (one session per request, see [get_db]); [outbound] logs the calls
    sent to a backend; [invocations] is ghost state: the snippets with
    which the suggestion provider was entered. *)
Record World : Type := mkWorld {
  config : Config;
  table : Table;
  objects : list Object;
  outbound : list Outbound;
  invocations : list string
}.

Definition set_table (t : Table) (w : World) : World :=
  mkWorld (config w) t (objects w) (outbound w) (invocations w).
Definition set_objects (os : list Object) (w : World) : World :=
  mkWorld (config w) (table w) os (outbound w) (invocations w).
Definition set_outbound (l : list Outbound) (w : World) : World :=
  mkWorld (config w) (table w) (objects w) l (invocations w).
Definition set_invocations (l : list string) (w : World) : World :=
  mkWorld (config w) (table w) (objects w) (outbound w) l.

(** ** State and exceptions *)
Definition M (A : Type) : Type := World -> result A * World.

Definition ret {A : Type} (a : A) : M A := fun w => (Ok a, w).

Definition raise {A : Type} (e : exn) : M A := fun w => (Raise e, w).

Definition bind {A B : Type} (m : M A) (k : A -> M B) : M B :=
  fun w =>
    match m w with
    | (Ok a, w') => k a w'
    | (Raise e, w') => (Raise e, w')
    end.

(** A pure step that may raise. *)
Definition lift {A : Type} (r : result A) : M A := fun w => (r, w).

Declare Scope py_scope.
Delimit Scope py_scope with py.
Notation "x <- m ;; k" := (bind m (fun x => k))
  (at level 100, m at next level, right associativity) : py_scope.
Notation "m ;; k" := (bind m (fun _ => k))
  (at level 100, right associativity) : py_scope.
Local Open Scope py_scope.

(** Sample data used further down. *)
Definition claude_config : Config := mkConfig "claude" "" "".
Definition openai_config : Config := mkConfig "openai" "sk-test" "".
Definition other_config : Config := mkConfig "mistral" "" "".

Definition row1 : models.ContentExample :=
  models.Build (Some 1) "A" (Some "http://a") "hello" (Some "n1") (Some "x,y").
Definition row2 : models.ContentExample :=
  models.Build (Some 2) "B" None "about cats and dogs" None (Some "").
Definition row3 : models.ContentExample :=
  models.Build (Some 3) "C" None "third" (Some "n3") (Some "z").
Definition sample_table : Table := [row1; row2; row3].

Definition payload_untagged : schemas.ContentExampleCreate :=
  schemas.Build "B" None "about cats and dogs" None (Some []).
Definition payload_bare : schemas.ContentExampleCreate :=
  schemas.Build "D" None "bare" None None.

(** A store that numbers a new row one above the largest id in use. *)
Definition rowid_next (t : Table) : Z :=
  1 + fold_right (fun r m => Z.max (the 0 (models.id r)) m) 0 t.

Definition backend_down (_ : list Outbound) (_ : Post) : result Response :=
  Raise (RequestException "connection refused").
Definition backend_tags (_ : list Outbound) (_ : Post) : result Response :=
  Ok (mkResponse 200 (Ok (JDict [("content", JStr "animals, pets")]))).
Definition openai_down (_ : list Outbound) (_ : ChatCompletion) : result json :=
  Raise (OpenAIError "no API key provided").
Definition openai_tags (_ : list Outbound) (_ : ChatCompletion) : result json :=
  Ok (JDict [("choices",
              JList [JDict [("message",
                             JDict [("content", JStr " animals ,pets,, ")])]])]).

Section Service.

(** Modelled from the spec: the storage engine behind the session
    ([database.py] is not part of the sources).  The spec asks of it
    a new unique id for a created record, single-row create, read,
    update and delete, and a stable store order, which is insertion
    order.  [new_id] is the id the engine gives to the next row. *)
Variable new_id : Table -> Z.
Hypothesis new_id_fresh : forall t : Table, ~ In (Some (new_id t)) (map models.id t).

(** The two backends, as seen from the client: what a call answers,
    given the calls made so far. *)
Variable openai_backend : list Outbound -> ChatCompletion -> result json.
Variable http_backend : list Outbound -> Post -> result Response.

(** *** The session *)

Definition has_id (i : Z) (r : models.ContentExample) : bool :=
  match models.id r with
  | Some j => Z.eqb j i
  | None => false
  end.

(** [r] is the row of the object [o]: same primary key. *)
Definition row_of (o r : models.ContentExample) : bool :=
  match models.id o with
  | Some i => has_id i r
  | None => false
  end.

(** UPDATE of the row of [o], in place. *)
Definition write_row (o : models.ContentExample) (t : Table) : Table :=
  map (fun r => if row_of o r then o else r) t.

(** DELETE of the row of [o]. *)
Definition remove_row (o : models.ContentExample) (t : Table) : Table :=
  filter (fun r => negb (row_of o r)) t.

(** What a flush does for one object: a pending object is inserted
    at the end of the table under a new id (the constructor calls of
    crud.py never pass an id), a persistent one is written back, one
    marked for deletion loses its row and leaves the session with the
    attributes it had. *)
Definition flush_object (t : Table) (so : Object) : Table * Object :=
  match so with
  | (Pending, o) =>
      let o' := models.set_id (Some (new_id t)) o in
      (t ++ [o'], (Persistent, o'))
  | (Persistent, o) => (write_row o t, so)
  | (Deleted, o) => (remove_row o t, (Detached, o))
  | _ => (t, so)
  end.

Fixpoint flush (t : Table) (os : list Object) : Table * list Object :=
  match os with
  | [] => (t, [])
  | so :: rest =>
      let (t1, so') := flush_object t so in
      let (t2, rest') := flush t1 rest in
      (t2, so' :: rest')
  end.

Fixpoint update_nth {A : Type} (n : nat) (f : A -> A) (l : list A) : list A :=
  match l, n with
  | [], _ => []
  | x :: rest, O => f x :: rest
  | x :: rest, S n' => x :: update_nth n' f rest
  end.

(** [models.ContentExample(...)]: a new Python object. *)
Definition new_object (o : models.ContentExample) : M ref :=
  fun w => (Ok (List.length (objects w)),
            set_objects (objects w ++ [(Transient, o)]) w).

(** [obj.attr = v] *)
Definition setattr (r : ref)
    (f : models.ContentExample -> models.ContentExample) : M unit :=
  fun w => (Ok tt,
            set_objects (update_nth r (fun so => (fst so, f (snd so)))
                                    (objects w)) w).

(** [db.add(obj)] *)
Definition db_add (r : ref) : M unit :=
  fun w => (Ok tt,
            set_objects
              (update_nth r (fun so => match so with
                                       | (Transient, o) => (Pending, o)
                                       | _ => so
                                       end) (objects w)) w).

(** [db.delete(obj)] *)
Definition db_delete (r : ref) : M unit :=
  fun w => (Ok tt,
            set_objects
              (update_nth r (fun so => match so with
                                       | (Persistent, o) => (Deleted, o)
                                       | _ => so
                                       end) (objects w)) w).

(** [db.commit()] *)
Definition db_commit : M unit :=
  fun w =>
    let (t, os) := flush (table w) (objects w) in
    (Ok tt, set_objects os (set_table t w)).

(** [db.refresh(obj)]: the attributes are read again from the row. *)
Definition db_refresh (r : ref) : M unit :=
  fun w =>
    match nth_error (objects w) r with
    | Some (Persistent, o) =>
        match find (row_of o) (table w) with
        | Some row =>
            (Ok tt,
             set_objects (update_nth r (fun _ => (Persistent, row))
                                     (objects w)) w)
        | None => (Raise InvalidRequestError, w)
        end
    | _ => (Raise InvalidRequestError, w)
    end.

(** The rows of a query become objects of the session. *)
Definition load (rows : list models.ContentExample) : M (list ref) :=
  fun w => (Ok (seq (List.length (objects w)) (List.length rows)),
            set_objects (objects w ++ map (pair Persistent) rows) w).

(** [db.query(models.ContentExample).filter(models.ContentExample.id == i).first()] *)
Definition query_filter_id_first (i : Z) : M (option ref) :=
  fun w =>
    match find (has_id i) (table w) with
    | Some row =>
        (Ok (Some (List.length (objects w))),
         set_objects (objects w ++ [(Persistent, row)]) w)
    | None => (Ok None, w)
    end.

(** OFFSET and LIMIT over the rows in store order (a negative LIMIT
    is no limit, a negative OFFSET is none). *)
Definition offset_limit (skip limit : Z) (t : Table) : Table :=
  let rest := skipn (Z.to_nat skip) t in
  if limit <? 0 then rest else firstn (Z.to_nat limit) rest.

(** [db.query(models.ContentExample).offset(skip).limit(limit).all()] *)
Definition query_offset_limit_all (skip limit : Z) : M (list ref) :=
  fun w => load (offset_limit skip limit (table w)) w.

(** The attributes of an object, as the response is built from it. *)
Definition attributes (w : World) (r : ref) : option models.ContentExample :=
  option_map snd (nth_error (objects w) r).

(** *** config.py *)

Definition get_ai_provider : M string :=
  fun w => (Ok (AI_PROVIDER (config w)), w).

Definition get_openai_api_key : M string :=
  fun w => (Ok (OPENAI_API_KEY (config w)), w).

Definition get_claude_api_key : M string :=
  fun w => (Ok (CLAUDE_API_KEY (config w)), w).

(** *** crud.py: the record store *)

Definition create_content_example
    (example : schemas.ContentExampleCreate) : M ref :=
  db_example <- new_object
    (models.Build None
       (schemas.title example)
       (schemas.source_url example)
       (schemas.content_snippet example)
       (schemas.notes example)
       (Some (tags_to_str (schemas.tags example)))) ;;
  db_add db_example ;;
  db_commit ;;
  db_refresh db_example ;;
  ret db_example.

Definition get_content_examples (skip limit : Z) : M (list ref) :=
  query_offset_limit_all skip limit.

Definition get_content_example (example_id : Z) : M (option ref) :=
  query_filter_id_first example_id.

Definition update_content_example (example_id : Z)
    (example : schemas.ContentExampleCreate) : M (option ref) :=
  db_example <- get_content_example example_id ;;
  match db_example with
  | Some o =>
      setattr o (models.set_title (schemas.title example)) ;;
      setattr o (models.set_source_url (schemas.source_url example)) ;;
      setattr o (models.set_content_snippet (schemas.content_snippet example)) ;;
      setattr o (models.set_notes (schemas.notes example)) ;;
      setattr o (models.set_tags (Some (tags_to_str (schemas.tags example)))) ;;
      db_commit ;;
      db_refresh o ;;
      ret db_example
  | None => ret db_example
  end.

Definition delete_content_example (example_id : Z) : M (option ref) :=
  db_example <- get_content_example example_id ;;
  match db_example with
  | Some o =>
      db_delete o ;;
      db_commit ;;
      ret db_example
  | None => ret db_example
  end.

(** *** crud.py: the suggestion provider *)

(** [openai.ChatCompletion.create(...)] *)
Definition openai_ChatCompletion_create (c : ChatCompletion) : M json :=
  fun w => (openai_backend (outbound w) c,
            set_outbound (outbound w ++ [OpenAICall c]) w).

(** [requests.post(endpoint, headers=headers, json=data)] *)
Definition requests_post (p : Post) : M Response :=
  fun w => (http_backend (outbound w) p,
            set_outbound (outbound w ++ [HttpPost p]) w).

(** Ghost step: the provider has been entered with this snippet. *)
Definition entered (content_snippet : string) : M unit :=
  fun w => (Ok tt, set_invocations (invocations w ++ [content_snippet]) w).

Definition newline : string := String "010"%char EmptyString.

Definition prompt_for (content_snippet : string) : string :=
  ("Suggest 3-5 relevant categories or tags for the following content, as a comma-separated list."
   ++ newline ++ "Content: " ++ content_snippet)%string.

(** [[tag.strip() for tag in pieces if tag.strip()]] *)
Definition stripped (pieces : list string) : list string :=
  map PyStr.strip (filter (fun tag => PyStr.truthy (PyStr.strip tag)) pieces).

Definition suggest_categories (content_snippet : string) : M (list string) :=
  entered content_snippet ;;
  provider <- get_ai_provider ;;
  let prompt := prompt_for content_snippet in
  if String.eqb provider "openai" then
    key <- get_openai_api_key ;;
    response <- openai_ChatCompletion_create
      (mkChatCompletion key "gpt-3.5-turbo"
         [[("role", "user"); ("content", prompt)]] 32 (1 # 2)) ;;
    choices <- lift (getattr response "choices") ;;
    choice <- lift (getitem_int choices 0) ;;
    message <- lift (getattr choice "message") ;;
    tags_str <- lift (getitem_str message "content") ;;
    pieces <- lift (split_comma tags_str) ;;
    ret (stripped pieces)
  else if String.eqb provider "claude" then
    key <- get_claude_api_key ;;
    let headers := [("x-api-key", key); ("Content-Type", "application/json")] in
    let data := JDict [("model", JStr "claude-3-opus-20240229");
                       ("max_tokens", JNum 32);
                       ("temperature", JNum (1 # 2));
                       ("messages",
                        JList [JDict [("role", JStr "user");
                                      ("content", JStr prompt)]])] in
    let endpoint := "https://api.anthropic.com/v1/messages" in
    response <- requests_post (mkPost endpoint headers data) ;;
    if status_code response =? 200 then
      body <- lift (json_ response) ;;
      tags_str <- lift (getitem_str body "content") ;;
      pieces <- lift (split_comma tags_str) ;;
      ret (stripped pieces)
    else ret []
  else ret [].

(** *** main.py: the API layer

    [get_db] opens a session of its own for every request: a handler
    starts with no object loaded. *)

Definition not_found : exn := HTTPException 404 "Example not found".

Definition create_example (example : schemas.ContentExampleCreate) : M ref :=
  tags <- (if truthy_list (schemas.tags example)
           then ret (schemas.tags example)
           else (suggested <- suggest_categories (schemas.content_snippet example) ;;
                 ret (Some suggested))) ;;
  let example_with_tags :=
    schemas.Build (schemas.title example)
                  (schemas.source_url example)
                  (schemas.content_snippet example)
                  (schemas.notes example)
                  tags in
  db_example <- create_content_example example_with_tags ;;
  ret db_example.

Definition read_examples (skip limit : Z) : M (list ref) :=
  get_content_examples skip limit.

Definition read_example (example_id : Z) : M ref :=
  db_example <- get_content_example example_id ;;
  match db_example with
  | None => raise not_found
  | Some o => ret o
  end.

Definition update_example (example_id : Z)
    (example : schemas.ContentExampleCreate) : M ref :=
  db_example <- update_content_example example_id example ;;
  match db_example with
  | None => raise not_found
  | Some o => ret o
  end.

Definition delete_example (example_id : Z) : M ref :=
  db_example <- delete_content_example example_id ;;
  match db_example with
  | None => raise not_found
  | Some o => ret o
  end.

(** The world a request starts in: the committed table and a session
    without objects. *)
Definition request_start (c : Config) (t : Table)
    (sent : list Outbound) (inv : list string) : World :=
  mkWorld c t [] sent inv.


(** *** Vocabulary of the statements *)

(** The tag holds no comma. *)
Definition comma_free (tag : string) : Prop :=
  PyStr.contains PyStr.comma tag = false.

(** What the provider hands back on success: tags without comma,
    none of them empty. *)
Definition clean (tag : string) : Prop := comma_free tag /\ tag <> "".

(** The request comes without tags: the field is absent or empty. *)
Definition untagged (example : schemas.ContentExampleCreate) : Prop :=
  schemas.tags example = None \/ schemas.tags example = Some [].

(** The payload with its tags replaced. *)
Definition with_tags (tags : list string)
    (example : schemas.ContentExampleCreate) : schemas.ContentExampleCreate :=
  schemas.Build (schemas.title example)
                (schemas.source_url example)
                (schemas.content_snippet example)
                (schemas.notes example)
                (Some tags).


(** A tag as the provider returns it: not empty, without comma, and
    with no white space left at either end. *)
Definition tidy (tag : string) : Prop :=
  tag <> "" /\ comma_free tag /\ PyStr.strip tag = tag.

(** The string has no white space in front. *)
Definition no_lead (s : string) : Prop :=
  match s with
  | EmptyString => True
  | String a _ => PyStr.isspace a = false
  end.

(** The call that the first backend receives for a snippet. *)
Definition openai_call (c : Config) (content_snippet : string) : ChatCompletion :=
  mkChatCompletion (OPENAI_API_KEY c) "gpt-3.5-turbo"
    [[("role", "user"); ("content", prompt_for content_snippet)]] 32 (1 # 2).

(** The request that the second backend receives for a snippet. *)
Definition claude_post (c : Config) (content_snippet : string) : Post :=
  mkPost "https://api.anthropic.com/v1/messages"
    [("x-api-key", CLAUDE_API_KEY c); ("Content-Type", "application/json")]
    (JDict [("model", JStr "claude-3-opus-20240229");
            ("max_tokens", JNum 32);
            ("temperature", JNum (1 # 2));
            ("messages",
             JList [JDict [("role", JStr "user");
                           ("content", JStr (prompt_for content_snippet))]])]).

(** What the provider sends for a snippet under a configuration. *)
Definition sent_for (c : Config) (content_snippet : string) : list Outbound :=
  if String.eqb (AI_PROVIDER c) "openai" then [OpenAICall (openai_call c content_snippet)]
  else if String.eqb (AI_PROVIDER c) "claude" then [HttpPost (claude_post c content_snippet)]
  else [].

(** A record with id [i] is in the store. *)
Definition present (i : Z) (t : Table) : Prop :=
  In (Some i) (map models.id t).

(** [id] is the primary key of the table. *)
Definition primary_key (t : Table) : Prop :=
  NoDup (map models.id t).

(** Nothing changed outside the store: same configuration, same
    outbound log, same entries of the provider. *)
Definition quiet (w w' : World) : Prop :=
  config w' = config w /\
  outbound w' = outbound w /\
  invocations w' = invocations w.

(** Every row has an id and no two rows share one. *)
Definition well_keyed (t : Table) : Prop :=
  primary_key t /\ ~ In None (map models.id t).

(** The records behind the references that a listing returned. *)
Definition rows_of (run : result (list ref) * World)
  : list (option models.ContentExample) :=
  match fst run with
  | Ok refs => map (attributes (snd run)) refs
  | Raise _ => []
  end.

(** The request that follows a run: a new session over the table the
    run left. *)
Definition next_request {A : Type} (run : result A * World) : World :=
  request_start (config (snd run)) (table (snd run))
                (outbound (snd run)) (invocations (snd run)).

(** The record that a payload makes under id [i]. *)
Definition record_of (i : Z) (example : schemas.ContentExampleCreate)
  : models.ContentExample :=
  models.Build (Some i)
    (schemas.title example)
    (schemas.source_url example)
    (schemas.content_snippet example)
    (schemas.notes example)
    (Some (tags_to_str (schemas.tags example))).

(** ** Facts about the string helpers *)

Example join_ab : PyStr.join "," ["a"; "b"; ""] = "a,b,".
Proof. reflexivity. Qed.

Example split_ab : PyStr.split PyStr.comma "a,,b," = ["a"; ""; "b"; ""].
Proof. reflexivity. Qed.

Example strip_ab : PyStr.strip "  a b  " = "a b".
Proof. reflexivity. Qed.

Lemma split_not_nil (sep : ascii) (s : string) : PyStr.split sep s <> [].
Proof.
  destruct s as [|a r]; simpl; [discriminate|].
  destruct (Ascii.eqb a sep); [discriminate|].
  destruct (PyStr.split sep r); discriminate.
Qed.

Lemma join_cons (sep x : string) (l : list string) :
  l <> [] -> PyStr.join sep (x :: l) = (x ++ sep ++ PyStr.join sep l)%string.
Proof. destruct l; [congruence | reflexivity]. Qed.

Lemma join_split (sep : ascii) (s : string) :
  PyStr.join (String sep EmptyString) (PyStr.split sep s) = s.
Proof.
  induction s as [|a r IH]; [reflexivity|].
  simpl PyStr.split.
  destruct (Ascii.eqb_spec a sep) as [->|Hne].
  - rewrite join_cons by apply split_not_nil.
    rewrite IH. reflexivity.
  - pose proof (split_not_nil sep r) as Hnil.
    destruct (PyStr.split sep r) as [|piece pieces]; [congruence|].
    destruct pieces as [|p ps].
    + simpl in *. congruence.
    + rewrite join_cons in IH by discriminate.
      rewrite join_cons by discriminate.
      simpl. rewrite <- IH. reflexivity.
Qed.

Lemma split_without_sep (sep : ascii) (x : string) :
  PyStr.contains sep x = false -> PyStr.split sep x = [x].
Proof.
  induction x as [|a r IH]; simpl; [reflexivity|].
  intros H. apply orb_false_elim in H as [Ha Hr].
  rewrite Ha, (IH Hr). reflexivity.
Qed.

Lemma split_prefix (sep : ascii) (x s : string) :
  PyStr.contains sep x = false ->
  PyStr.split sep (x ++ String sep s) = x :: PyStr.split sep s.
Proof.
  induction x as [|a r IH]; simpl.
  - intros _. rewrite Ascii.eqb_refl. reflexivity.
  - intros H. apply orb_false_elim in H as [Ha Hr].
    rewrite Ha, (IH Hr). reflexivity.
Qed.

(** Splitting a joined list gives the list back, unless the list is
    empty: the elements must be free of the separator. *)
Lemma split_join (sep : ascii) (l : list string) :
  l <> [] ->
  Forall (fun x => PyStr.contains sep x = false) l ->
  PyStr.split sep (PyStr.join (String sep EmptyString) l) = l.
Proof.
  induction l as [|x l IH]; [congruence|].
  intros _ Hall. inversion Hall as [|? ? Hx Hl]; subst.
  destruct l as [|y l].
  - simpl. now apply split_without_sep.
  - rewrite join_cons by discriminate.
    change (x ++ String sep EmptyString ++ ?j)%string
      with (x ++ String sep j)%string.
    rewrite split_prefix by assumption.
    rewrite IH; [reflexivity | discriminate | assumption].
Qed.

(** ** The tag codec *)

Lemma join_empty (sep : string) (x : string) (l : list string) :
  sep <> EmptyString -> PyStr.join sep (x :: l) = EmptyString ->
  x = EmptyString /\ l = [].
Proof.
  intros Hsep. destruct l as [|y l]; simpl.
  - intros ->. split; reflexivity.
  - intros H. destruct x; simpl in H; [|discriminate].
    destruct sep; [congruence | discriminate].
Qed.

Lemma decode_encode (x : list string) :
  Forall comma_free x -> x <> [""] ->
  str_to_tags (Some (tags_to_str (Some x))) = x.
Proof.
  intros Hfree Hx. destruct x as [|a l]; [reflexivity|].
  unfold tags_to_str. cbn [truthy_list the].
  destruct (PyStr.join "," (a :: l)) as [|c j] eqn:Hj.
  - apply join_empty in Hj as [-> ->]; [congruence | discriminate].
  - unfold str_to_tags. cbn [truthy_str PyStr.truthy the].
    rewrite <- Hj. apply (split_join PyStr.comma); [discriminate | exact Hfree].
Qed.

(** C2, as amended: decoding the encoding of a tag sequence gives the
    sequence back when no tag contains a comma and the sequence is not
    the one-element sequence holding the empty tag. *)
Theorem tag_codec_round_trip (x : list string) :
  Forall comma_free x -> x <> [""] ->
  str_to_tags (Some (tags_to_str (Some x))) = x.
Proof.
  intros Hfree Hx. destruct x as [|a l]; [reflexivity|].
  unfold tags_to_str. cbn [truthy_list the].
  destruct (PyStr.join "," (a :: l)) as [|c j] eqn:Hj.
  - (* only [""] encodes to the empty string *)
    apply join_empty in Hj as [-> ->]; [congruence | discriminate].
  - unfold str_to_tags. cbn [truthy_str PyStr.truthy the].
    rewrite <- Hj. apply (split_join PyStr.comma); [discriminate | exact Hfree].
Qed.

(** C10: encoding the decoding of any stored string gives the string
    back, so decoding is injective on stored strings. *)
Theorem stored_tags_stable :
  (forall s : string, tags_to_str (Some (str_to_tags (Some s))) = s) /\
  (forall s s' : string,
      str_to_tags (Some s) = str_to_tags (Some s') -> s = s').
Proof.
  assert (Hstable : forall s : string,
             tags_to_str (Some (str_to_tags (Some s))) = s).
  { intros s. destruct s as [|a r]; [reflexivity|].
    unfold str_to_tags. cbn [truthy_str PyStr.truthy the].
    pose proof (split_not_nil PyStr.comma (String a r)) as Hnil.
    unfold tags_to_str.
    destruct (PyStr.split PyStr.comma (String a r)) as [|p ps] eqn:Hs;
      [congruence|].
    cbn [truthy_list the]. rewrite <- Hs.
    apply (join_split PyStr.comma). }
  split; [exact Hstable|].
  intros s s' H.
  rewrite <- (Hstable s), <- (Hstable s'), H. reflexivity.
Qed.

(** ** The session and the table *)

Lemma find_append {A : Type} (f : A -> bool) (l l' : list A) :
  find f (l ++ l') = match find f l with
                     | Some x => Some x
                     | None => find f l'
                     end.
Proof.
  induction l as [|a l IH]; simpl; [reflexivity|].
  destruct (f a); [reflexivity | exact IH].
Qed.

Lemma has_id_true (i : Z) (r : models.ContentExample) :
  has_id i r = true <-> models.id r = Some i.
Proof.
  unfold has_id. destruct (models.id r) as [j|].
  - rewrite Z.eqb_eq. split; congruence.
  - split; discriminate.
Qed.

Lemma absent_find (i : Z) (t : Table) :
  ~ present i t <-> find (has_id i) t = None.
Proof.
  unfold present. induction t as [|r t IH]; simpl.
  - tauto.
  - destruct (has_id i r) eqn:Hr.
    + apply has_id_true in Hr. split; [tauto | discriminate].
    + rewrite <- IH. split; [tauto|].
      intros Habs [Heq|Hin]; [|tauto].
      apply has_id_true in Heq. congruence.
Qed.


(** Under the primary key, the row found for an id is the one row
    that carries it. *)
Lemma find_unique (i : Z) (t : Table) (old : models.ContentExample) :
  primary_key t -> In old t -> models.id old = Some i ->
  find (has_id i) t = Some old.
Proof.
  unfold primary_key. induction t as [|r t IH]; simpl; [tauto|].
  intros Hnd Hin Hid. inversion Hnd as [|? ? Hnotin Hnd']; subst.
  destruct (has_id i r) eqn:Hr.
  - apply has_id_true in Hr. destruct Hin as [->|Hin]; [reflexivity|].
    exfalso. apply Hnotin. rewrite Hr, <- Hid. now apply in_map.
  - destruct Hin as [->|Hin]; [|now apply IH].
    apply has_id_true in Hid. congruence.
Qed.

Lemma find_write_row (i : Z) (o : models.ContentExample) (t : Table) :
  models.id o = Some i -> present i t ->
  find (has_id i) (write_row o t) = Some o.
Proof.
  intros Ho. unfold present, write_row, row_of. rewrite Ho.
  induction t as [|r t IH]; simpl; [tauto|].
  intros Hp. destruct (has_id i r) eqn:Hr.
  - apply has_id_true in Ho. now rewrite Ho.
  - rewrite Hr. apply IH. destruct Hp as [Heq|Hin]; [|exact Hin].
    apply has_id_true in Heq. congruence.
Qed.

Lemma find_remove_row (i : Z) (o : models.ContentExample) (t : Table) :
  models.id o = Some i -> find (has_id i) (remove_row o t) = None.
Proof.
  intros Ho. unfold remove_row, row_of. rewrite Ho.
  induction t as [|r t IH]; simpl; [reflexivity|].
  destruct (has_id i r) eqn:Hr; simpl; [exact IH|].
  now rewrite Hr.
Qed.


Lemma find_other_remove_row (i j : Z) (o : models.ContentExample) (t : Table) :
  models.id o = Some i -> j <> i ->
  find (has_id j) (remove_row o t) = find (has_id j) t.
Proof.
  intros Ho Hne. unfold remove_row, row_of. rewrite Ho.
  induction t as [|r t IH]; simpl; [reflexivity|].
  destruct (has_id i r) eqn:Hr; simpl.
  - apply has_id_true in Hr.
    assert (Hrj : has_id j r = false).
    { destruct (has_id j r) eqn:E; [|reflexivity].
      apply has_id_true in E. congruence. }
    now rewrite Hrj.
  - now rewrite IH.
Qed.

(** The objects loaded by a query carry the rows, in order. *)
Lemma attributes_loaded (rows : list models.ContentExample) :
  forall os : list Object,
    map (fun r => option_map snd
                    (nth_error (os ++ map (pair Persistent) rows) r))
        (seq (List.length os) (List.length rows))
    = map Some rows.
Proof.
  induction rows as [|a rows IH]; intros os; [reflexivity|].
  cbn [List.length seq map]. f_equal.
  - rewrite nth_error_app2 by lia. now rewrite Nat.sub_diag.
  - specialize (IH (os ++ [(Persistent, a)])).
    rewrite <- app_assoc in IH. cbn [app] in IH.
    rewrite length_app in IH. cbn [List.length] in IH.
    replace (List.length os + 1)%nat with (S (List.length os)) in IH by lia.
    exact IH.
Qed.

(** *** The primary key is kept by every change of the table *)

Lemma NoDup_snoc {A : Type} (x : A) (l : list A) :
  NoDup l -> ~ In x l -> NoDup (l ++ [x]).
Proof.
  induction l as [|a l IH]; simpl; intros Hnd Hx.
  - constructor; [tauto | constructor].
  - inversion Hnd as [|? ? Ha Hl]; subst. constructor.
    + rewrite in_app_iff. simpl. intros [Hin|[Heq|[]]]; [tauto|].
      apply Hx. now left.
    + apply IH; [assumption | tauto].
Qed.

(** Taking rows out of a keyed table leaves it keyed. *)
Lemma remove_row_keyed (o : models.ContentExample) (t : Table) :
  primary_key t -> primary_key (remove_row o t).
Proof.
  unfold primary_key, remove_row.
  induction t as [|r t IH]; cbn [map filter]; intros Hkeys; [constructor|].
  apply NoDup_cons_iff in Hkeys as [Hnew Hrest].
  destruct (negb (row_of o r)); [|exact (IH Hrest)].
  cbn [map]. apply NoDup_cons_iff. split; [|exact (IH Hrest)].
  intros Hin. apply Hnew.
  apply in_map_iff in Hin as [r' [Hsame Hkept]].
  apply filter_In in Hkept as [Hthere _].
  rewrite <- Hsame. now apply in_map.
Qed.

Lemma write_row_ids (o : models.ContentExample) (t : Table) :
  map models.id (write_row o t) = map models.id t.
Proof.
  unfold write_row, row_of. destruct (models.id o) as [i|] eqn:Ho.
  - induction t as [|r t IH]; simpl; [reflexivity|].
    rewrite IH. destruct (has_id i r) eqn:Hr; [|reflexivity].
    apply has_id_true in Hr. now rewrite Ho, Hr.
  - induction t as [|r t IH]; simpl; [reflexivity|]. now rewrite IH.
Qed.

Lemma primary_key_kept (t : Table) :
  primary_key t ->
  (forall example, primary_key (t ++ [record_of (new_id t) example])) /\
  (forall o, primary_key (write_row o t)) /\
  (forall o, primary_key (remove_row o t)).
Proof.
  unfold primary_key. intros Hpk. repeat split.
  - intros example. rewrite map_app. simpl.
    apply NoDup_snoc; [exact Hpk | apply new_id_fresh].
  - intros o. now rewrite write_row_ids.
  - intros o. now apply remove_row_keyed.
Qed.

(** ** The record store *)

(** The five assignments of [update_content_example] leave nothing of
    the old record but its id. *)
Lemma assigned_fields (i : Z) (old : models.ContentExample)
    (example : schemas.ContentExampleCreate) :
  models.id old = Some i ->
  models.set_tags (Some (tags_to_str (schemas.tags example)))
    (models.set_notes (schemas.notes example)
       (models.set_content_snippet (schemas.content_snippet example)
          (models.set_source_url (schemas.source_url example)
             (models.set_title (schemas.title example) old))))
  = record_of i example.
Proof.
  intros Hid. destruct old. simpl in Hid. subst. reflexivity.
Qed.

(** C5: on an id that is not in the store, get, update and delete
    return [None], the API layer answers not-found, and the world
    (the table with it) is as before. *)
Theorem absent_id_not_found
    (w : World) (i : Z) (example : schemas.ContentExampleCreate) :
  ~ present i (table w) ->
  get_content_example i w = (Ok None, w) /\
  update_content_example i example w = (Ok None, w) /\
  delete_content_example i w = (Ok None, w) /\
  read_example i w = (Raise not_found, w) /\
  update_example i example w = (Raise not_found, w) /\
  delete_example i w = (Raise not_found, w).
Proof.
  intros Habs. apply absent_find in Habs.
  assert (Hget : get_content_example i w = (Ok None, w)).
  { unfold get_content_example, query_filter_id_first. now rewrite Habs. }
  unfold read_example, update_example, delete_example,
    update_content_example, delete_content_example, bind.
  rewrite Hget. repeat split; reflexivity.
Qed.


(** C7: on an id that is in the store, delete returns the record as
    it was before the call and takes its row out of the table; the
    other rows stay, and a get on the same id in a later request
    finds nothing. *)
Theorem delete_returns_and_removes
    (c : Config) (t : Table) (sent : list Outbound) (inv : list string)
    (i : Z) (old : models.ContentExample) :
  primary_key t -> In old t -> models.id old = Some i ->
  let w := request_start c t sent inv in
  exists w',
    delete_content_example i w = (Ok (Some 0%nat), w') /\
    delete_example i w = (Ok 0%nat, w') /\
    attributes w' 0%nat = Some old /\
    table w' = filter (fun r => negb (has_id i r)) t /\
    ~ present i (table w') /\
    (forall j, j <> i -> find (has_id j) (table w') = find (has_id j) t) /\
    let later := request_start c (table w') (outbound w') (invocations w') in
    get_content_example i later = (Ok None, later) /\
    read_example i later = (Raise not_found, later).
Proof.
  intros Hpk Hin Hid w.
  pose proof (find_unique i t old Hpk Hin Hid) as Hfind.
  assert (Hrun : delete_content_example i w
                 = (Ok (Some 0%nat),
                    mkWorld c (remove_row old t) [(Detached, old)] sent inv)).
  { unfold delete_content_example, get_content_example,
      query_filter_id_first, bind, w, request_start.
    cbn [table objects]. rewrite Hfind. reflexivity. }
  assert (Hgone : find (has_id i) (remove_row old t) = None)
    by now apply find_remove_row.
  eexists. split; [exact Hrun|].
  split; [unfold delete_example, bind; rewrite Hrun; reflexivity|].
  cbn [table attributes objects outbound invocations nth_error option_map snd].
  repeat split.
  - unfold remove_row, row_of. now rewrite Hid.
  - now apply absent_find.
  - intros j Hj. now apply (find_other_remove_row i).
  - unfold get_content_example, query_filter_id_first, request_start.
    cbn [table]. now rewrite Hgone.
  - unfold read_example, get_content_example, query_filter_id_first,
      bind, request_start.
    cbn [table]. now rewrite Hgone.
Qed.

(** A created record goes to the end of the table, under the new id,
    and the object handed back carries it. *)
Lemma create_content_example_run
    (c : Config) (t : Table) (sent : list Outbound) (inv : list string)
    (example : schemas.ContentExampleCreate) :
  let row := record_of (new_id t) example in
  create_content_example example (request_start c t sent inv)
  = (Ok 0%nat, mkWorld c (t ++ [row]) [(Persistent, row)] sent inv).
Proof.
  intros row.
  unfold create_content_example, new_object, db_add, db_commit, db_refresh,
    bind, ret, request_start, set_objects, set_table.
  cbn [table objects config outbound invocations List.length app
       update_nth flush flush_object nth_error].
  change (models.set_id _ _) with row.
  replace (row_of row) with (has_id (new_id t)) by reflexivity.
  rewrite find_append.
  pose proof (new_id_fresh t) as Hfresh.
  apply absent_find in Hfresh. rewrite Hfresh.
  cbn [find]. replace (has_id (new_id t) row) with true; [reflexivity|].
  symmetry. now apply has_id_true.
Qed.

(** Whatever id the engine picks, the new row is the last one. *)
Lemma create_content_example_appends
    (c : Config) (t : Table) (sent : list Outbound) (inv : list string)
    (example : schemas.ContentExampleCreate) :
  table (snd (create_content_example example (request_start c t sent inv)))
  = t ++ [record_of (new_id t) example].
Proof. now rewrite create_content_example_run. Qed.

(** C8: for an offset [N >= 0] and a limit [M > 0], list returns the
    records at the positions [N], [N+1], ... of the table, in table
    order, [M] of them at most; beyond the end of the table it
    returns the empty sequence; the table is not changed.  Table
    order is insertion order: a created record takes the position
    after all the records already there. *)
Theorem list_is_a_window_of_the_table (w : World) (N M : Z) :
  0 <= N -> 0 < M ->
  exists refs w',
    get_content_examples N M w = (Ok refs, w') /\
    read_examples N M w = (Ok refs, w') /\
    table w' = table w /\
    map (attributes w') refs
    = map Some (firstn (Z.to_nat M) (skipn (Z.to_nat N) (table w))) /\
    Z.of_nat (List.length refs) <= M /\
    (Z.of_nat (List.length (table w)) <= N -> refs = []) /\
    (forall example,
        table (snd (create_content_example example
                      (request_start (config w) (table w)
                                     (outbound w) (invocations w))))
        = table w ++ [record_of (new_id (table w)) example]).
Proof.
  intros HN HM.
  assert (Hwin : offset_limit N M (table w)
                 = firstn (Z.to_nat M) (skipn (Z.to_nat N) (table w))).
  { unfold offset_limit. destruct (M <? 0) eqn:E; [|reflexivity].
    apply Z.ltb_lt in E. lia. }
  unfold read_examples, get_content_examples, query_offset_limit_all, load.
  rewrite Hwin.
  set (rows := firstn (Z.to_nat M) (skipn (Z.to_nat N) (table w))).
  do 2 eexists. split; [reflexivity|]. split; [reflexivity|].
  split; [reflexivity|]. split; [|split; [|split]].
  - unfold attributes, set_objects. cbn [objects].
    apply attributes_loaded.
  - rewrite length_seq. unfold rows. rewrite length_firstn. lia.
  - intros Hlen. unfold rows. rewrite skipn_all2 by lia.
    rewrite firstn_nil. reflexivity.
  - intros example. apply create_content_example_appends.
Qed.


(** ** The suggestion provider *)

Lemma split_pieces_free (sep : ascii) (s : string) :
  Forall (fun x => PyStr.contains sep x = false) (PyStr.split sep s).
Proof.
  induction s as [|a r IH]; simpl.
  - constructor; [reflexivity | constructor].
  - destruct (Ascii.eqb a sep) eqn:Ha.
    + constructor; [reflexivity | exact IH].
    + destruct (PyStr.split sep r) as [|piece pieces].
      * constructor; [simpl; now rewrite Ha | constructor].
      * inversion IH; subst. constructor; [simpl; now rewrite Ha | assumption].
Qed.

Lemma lstrip_free (c : ascii) (s : string) :
  PyStr.contains c s = false -> PyStr.contains c (PyStr.lstrip s) = false.
Proof.
  induction s as [|a r IH]; simpl; [reflexivity|].
  intros H. destruct (PyStr.isspace a); [|exact H].
  apply orb_false_elim in H as [_ Hr]. now apply IH.
Qed.

Lemma rstrip_free (c : ascii) (s : string) :
  PyStr.contains c s = false -> PyStr.contains c (PyStr.rstrip s) = false.
Proof.
  induction s as [|a r IH]; simpl; [reflexivity|].
  intros H. apply orb_false_elim in H as [Ha Hr]. specialize (IH Hr).
  destruct (PyStr.rstrip r) as [|b r'].
  - destruct (PyStr.isspace a); simpl; [reflexivity | now rewrite Ha].
  - simpl in *. now rewrite Ha.
Qed.

Lemma strip_free (c : ascii) (s : string) :
  PyStr.contains c s = false -> PyStr.contains c (PyStr.strip s) = false.
Proof. intros H. unfold PyStr.strip. now apply rstrip_free, lstrip_free. Qed.

Lemma stripped_clean (pieces : list string) :
  Forall comma_free pieces -> Forall clean (stripped pieces).
Proof.
  unfold stripped. induction pieces as [|p ps IH]; simpl; [constructor|].
  intros Hall. inversion Hall as [|? ? Hp Hps]; subst.
  destruct (PyStr.truthy (PyStr.strip p)) eqn:Htruthy; [|now apply IH].
  simpl. constructor; [|now apply IH].
  split; [now apply strip_free|].
  intros Hempty. rewrite Hempty in Htruthy. discriminate.
Qed.

Lemma clean_round_trip (l : list string) :
  Forall clean l -> str_to_tags (Some (tags_to_str (Some l))) = l.
Proof.
  intros Hclean. apply decode_encode.
  - eapply Forall_impl; [|exact Hclean]. now intros tag [Hfree _].
  - intros ->. inversion Hclean as [|? ? [_ Hne] _]. congruence.
Qed.

Lemma split_comma_free (o : json) (pieces : list string) :
  split_comma o = Ok pieces -> Forall comma_free pieces.
Proof.
  destruct o; simpl; try discriminate.
  intros H. inversion H; subst. apply split_pieces_free.
Qed.

Ltac run_provider :=
  unfold suggest_categories, entered, get_ai_provider, get_openai_api_key,
    get_claude_api_key, openai_ChatCompletion_create, requests_post,
    lift, bind, ret, set_invocations, set_outbound;
  cbn [config table objects outbound invocations].

Ltac split_cases :=
  repeat match goal with
         | |- context [match ?x with _ => _ end] => destruct x eqn:?
         | |- context [if ?x then _ else _] => destruct x eqn:?
         end.

(** A call of the provider records its entry, sends one request at
    most and touches neither the table nor the session. *)
Lemma suggest_categories_world (snippet : string) (w : World) :
  exists sent',
    (List.length sent' <= 1)%nat /\
    snd (suggest_categories snippet w)
    = mkWorld (config w) (table w) (objects w)
              (outbound w ++ sent') (invocations w ++ [snippet]).
Proof.
  run_provider.
  destruct (String.eqb (AI_PROVIDER (config w)) "openai").
  - eexists [_]. split; [simpl; lia|]. split_cases; reflexivity.
  - destruct (String.eqb (AI_PROVIDER (config w)) "claude").
    + eexists [_]. split; [simpl; lia|]. split_cases; reflexivity.
    + exists []. split; [simpl; lia|]. rewrite app_nil_r. reflexivity.
Qed.

Lemma suggest_categories_result
    (snippet : string) (w : World) (suggested : list string) :
  fst (suggest_categories snippet w) = Ok suggested -> Forall clean suggested.
Proof.
  run_provider.
  split_cases; cbn [fst]; intros H; inversion H; subst;
    solve [ apply Forall_nil
          | eapply stripped_clean, split_comma_free; eassumption ].
Qed.

(** ** Creation through the API layer *)

Lemma untagged_falsy (example : schemas.ContentExampleCreate) :
  untagged example -> truthy_list (schemas.tags example) = false.
Proof. intros [H|H]; now rewrite H. Qed.

(** With tags in the request, the handler goes straight to the store. *)
Lemma create_example_tagged
    (example : schemas.ContentExampleCreate) (w : World) :
  truthy_list (schemas.tags example) = true ->
  create_example example w = create_content_example example w.
Proof.
  intros Htags. unfold create_example at 1. unfold bind at 1.
  rewrite Htags. unfold ret at 1.
  destruct example as [ti su sn no ta]. cbn [schemas.title schemas.source_url
    schemas.content_snippet schemas.notes schemas.tags].
  unfold bind, ret.
  destruct (create_content_example _ w) as [[r|e] w']; reflexivity.
Qed.

(** Without tags, the handler runs the provider on the snippet and
    stores what it returned; what the provider raises goes through. *)
Lemma create_example_untagged
    (example : schemas.ContentExampleCreate) (w : World) :
  truthy_list (schemas.tags example) = false ->
  create_example example w
  = match suggest_categories (schemas.content_snippet example) w with
    | (Ok suggested, w1) =>
        create_content_example (with_tags suggested example) w1
    | (Raise e, w1) => (Raise e, w1)
    end.
Proof.
  intros Htags. unfold create_example, with_tags.
  unfold bind at 1. rewrite Htags. unfold bind at 1.
  destruct (suggest_categories _ w) as [[suggested|e] w1]; [|reflexivity].
  unfold ret at 1. unfold bind, ret.
  destruct (create_content_example _ w1) as [[r|e] w']; reflexivity.
Qed.


(** C4: a request without tags makes the handler enter the suggestion
    provider once, on the snippet of the request; when the provider
    returns a sequence, the record is stored with the encoding of
    that sequence, which decodes to the sequence itself, in order. *)
Theorem absent_tags_ask_provider_once
    (c : Config) (t : Table) (sent : list Outbound) (inv : list string)
    (example : schemas.ContentExampleCreate) :
  untagged example ->
  let w := request_start c t sent inv in
  let snippet := schemas.content_snippet example in
  invocations (snd (create_example example w)) = inv ++ [snippet] /\
  forall suggested w1,
    suggest_categories snippet w = (Ok suggested, w1) ->
    let row := record_of (new_id t) (with_tags suggested example) in
    exists w',
      create_example example w = (Ok 0%nat, w') /\
      table w' = t ++ [row] /\
      attributes w' 0%nat = Some row /\
      models.tags row = Some (tags_to_str (Some suggested)) /\
      str_to_tags (models.tags row) = suggested /\
      outbound w' = outbound w1 /\
      (List.length (outbound w') <= List.length sent + 1)%nat.
Proof.
  intros Hno w snippet. apply untagged_falsy in Hno.
  destruct (suggest_categories_world snippet w) as [sent' [Hlen Hw1]].
  cbn [w request_start config table objects outbound invocations] in Hw1.
  rewrite (create_example_untagged example w Hno). fold snippet.
  split.
  - destruct (suggest_categories snippet w) as [[suggested|e] w1];
      cbn [snd] in Hw1; subst w1; [|reflexivity].
    change (mkWorld c t [] (sent ++ sent') (inv ++ [snippet]))
      with (request_start c t (sent ++ sent') (inv ++ [snippet])).
    now rewrite create_content_example_run.
  - intros suggested w1 Hrun.
    pose proof (suggest_categories_result snippet w suggested) as Hclean.
    rewrite Hrun in Hw1, Hclean. cbn [fst snd] in Hw1, Hclean.
    specialize (Hclean eq_refl). subst w1. rewrite Hrun. intros row.
    change (mkWorld c t [] (sent ++ sent') (inv ++ [snippet]))
      with (request_start c t (sent ++ sent') (inv ++ [snippet])).
    rewrite create_content_example_run. fold row.
    eexists. split; [reflexivity|].
    cbn [table attributes objects outbound nth_error option_map snd
         request_start].
    repeat split.
    + cbn [record_of with_tags models.tags schemas.tags].
      now apply clean_round_trip.
    + rewrite length_app. lia.
Qed.

(** ** The provider when a backend fails or none is selected *)

Lemma suggest_unknown_backend (snippet : string) (w : World) :
  AI_PROVIDER (config w) <> "openai" ->
  AI_PROVIDER (config w) <> "claude" ->
  suggest_categories snippet w
  = (Ok [], set_invocations (invocations w ++ [snippet]) w).
Proof.
  intros Ho Hc. apply String.eqb_neq in Ho, Hc.
  run_provider. rewrite Ho, Hc. reflexivity.
Qed.


(** C9: with a backend name that is neither of the two known ones,
    the provider sends nothing and returns the empty sequence; it
    raises nothing and leaves the table alone. *)
Theorem unknown_backend_suggests_nothing (snippet : string) (w : World) :
  AI_PROVIDER (config w) <> "openai" ->
  AI_PROVIDER (config w) <> "claude" ->
  exists w',
    suggest_categories snippet w = (Ok [], w') /\
    outbound w' = outbound w /\
    table w' = table w /\
    objects w' = objects w.
Proof.
  intros Ho Hc. rewrite (suggest_unknown_backend snippet w Ho Hc).
  eexists. repeat split.
Qed.


(** ** More on the tag codec *)

Lemma split_single_empty (sep : ascii) (s : string) :
  PyStr.split sep s = [""] -> s = "".
Proof.
  intros H. rewrite <- (join_split sep s), H. reflexivity.
Qed.

(** The pieces of a string cut by a separator, when the string is
    itself two strings put together around one separator. *)
Lemma split_around (sep : ascii) (x s : string) :
  PyStr.split sep (x ++ String sep s) = PyStr.split sep x ++ PyStr.split sep s.
Proof.
  induction x as [|a r IH]; cbn [String.append PyStr.split].
  - rewrite Ascii.eqb_refl. reflexivity.
  - rewrite IH. destruct (Ascii.eqb a sep); [reflexivity|].
    pose proof (split_not_nil sep r) as Hnil.
    destruct (PyStr.split sep r) as [|piece pieces]; [congruence | reflexivity].
Qed.

Lemma split_join_fragments (sep : ascii) (l : list string) :
  l <> [] ->
  PyStr.split sep (PyStr.join (String sep EmptyString) l)
  = flat_map (PyStr.split sep) l.
Proof.
  induction l as [|x l IH]; [congruence|]. intros _.
  destruct l as [|y l].
  - cbn [PyStr.join flat_map]. now rewrite app_nil_r.
  - rewrite join_cons by discriminate.
    change (x ++ String sep EmptyString ++ ?j)%string
      with (x ++ String sep j)%string.
    rewrite split_around, IH by discriminate. reflexivity.
Qed.

(** The encoding is the empty string for three inputs only: no list,
    the empty list, and the list of one empty tag. *)
Theorem encoding_empty_iff (tags : option (list string)) :
  tags_to_str tags = "" <->
  tags = None \/ tags = Some [] \/ tags = Some [""].
Proof.
  split.
  - destruct tags as [[|a l]|]; [tauto | | tauto].
    unfold tags_to_str. cbn [truthy_list the]. intros Hj.
    apply join_empty in Hj as [-> ->]; [tauto | discriminate].
  - intros [->|[->| ->]]; reflexivity.
Qed.

(** The values of [str_to_tags] on strings are the comma-free lists
    other than the list of one empty tag. *)
Theorem decoded_values (x : list string) :
  (exists s : string, str_to_tags (Some s) = x) <->
  Forall comma_free x /\ x <> [""].
Proof.
  split.
  - intros [s <-]. destruct s as [|a r].
    + split; [constructor | discriminate].
    + unfold str_to_tags. cbn [truthy_str PyStr.truthy the]. split.
      * apply split_pieces_free.
      * intros H. apply split_single_empty in H. discriminate.
  - intros [Hfree Hne]. exists (tags_to_str (Some x)).
    now apply decode_encode.
Qed.

(** A tag that holds commas comes back in pieces: decoding the
    encoding cuts every tag at its commas and keeps the order. *)
Theorem round_trip_fragments (x : list string) :
  x <> [""] ->
  str_to_tags (Some (tags_to_str (Some x)))
  = flat_map (PyStr.split PyStr.comma) x.
Proof.
  intros Hne. destruct x as [|a l]; [reflexivity|].
  unfold tags_to_str. cbn [truthy_list the].
  destruct (PyStr.join "," (a :: l)) as [|c j] eqn:Hj.
  - apply join_empty in Hj as [-> ->]; [congruence | discriminate].
  - unfold str_to_tags. cbn [truthy_str PyStr.truthy the].
    rewrite <- Hj. apply (split_join_fragments PyStr.comma). discriminate.
Qed.

(** ** More on the suggestion provider *)

Lemma lstrip_no_lead (s : string) : no_lead (PyStr.lstrip s).
Proof.
  induction s as [|a r IH]; simpl; [exact I|].
  destruct (PyStr.isspace a) eqn:Ha; [exact IH | exact Ha].
Qed.

Lemma no_lead_lstrip (s : string) : no_lead s -> PyStr.lstrip s = s.
Proof. destruct s as [|a r]; simpl; [reflexivity|]. now intros ->. Qed.

Lemma rstrip_no_lead (s : string) : no_lead s -> no_lead (PyStr.rstrip s).
Proof.
  destruct s as [|a r]; simpl; [exact id|]. intros Ha.
  destruct (PyStr.rstrip r); [rewrite Ha|]; exact Ha.
Qed.

Lemma rstrip_cons (a : ascii) (r : string) :
  PyStr.rstrip (String a r)
  = match PyStr.rstrip r with
    | EmptyString =>
        if PyStr.isspace a then EmptyString else String a EmptyString
    | String b r' => String a (String b r')
    end.
Proof. reflexivity. Qed.

Lemma rstrip_twice (s : string) :
  PyStr.rstrip (PyStr.rstrip s) = PyStr.rstrip s.
Proof.
  induction s as [|a r IH]; [reflexivity|].
  rewrite (rstrip_cons a r).
  destruct (PyStr.rstrip r) as [|b r'] eqn:Hr.
  - destruct (PyStr.isspace a) eqn:Ha; [reflexivity|].
    rewrite rstrip_cons. cbn [PyStr.rstrip]. now rewrite Ha.
  - rewrite rstrip_cons, IH. reflexivity.
Qed.

Lemma strip_twice (s : string) : PyStr.strip (PyStr.strip s) = PyStr.strip s.
Proof.
  unfold PyStr.strip.
  rewrite (no_lead_lstrip (PyStr.rstrip (PyStr.lstrip s))).
  - apply rstrip_twice.
  - apply rstrip_no_lead, lstrip_no_lead.
Qed.

Lemma stripped_tidy (pieces : list string) :
  Forall comma_free pieces -> Forall tidy (stripped pieces).
Proof.
  unfold stripped. induction pieces as [|p ps IH]; simpl; [constructor|].
  intros Hall. inversion Hall as [|? ? Hp Hps]; subst.
  destruct (PyStr.truthy (PyStr.strip p)) eqn:Htruthy; [|now apply IH].
  simpl. constructor; [|now apply IH].
  split; [|split].
  - intros Hempty. rewrite Hempty in Htruthy. discriminate.
  - now apply strip_free.
  - apply strip_twice.
Qed.

(** Whatever the backend answers, a sequence returned by the provider
    holds only tags that are not empty, have no comma and carry no
    white space at their ends. *)
Theorem suggested_tags_tidy
    (snippet : string) (w : World) (suggested : list string) :
  fst (suggest_categories snippet w) = Ok suggested -> Forall tidy suggested.
Proof.
  run_provider.
  split_cases; cbn [fst]; intros H; inversion H; subst;
    solve [ apply Forall_nil
          | eapply stripped_tidy, split_comma_free; eassumption ].
Qed.

(** Whatever the backend answers, a call of the provider leaves the
    configuration, the table and the session as they were and adds to
    the outbound log exactly the request that the configuration and
    the snippet determine: one call to the selected backend, with that
    backend's key, or nothing when no backend is selected. *)
Theorem provider_footprint (snippet : string) (w : World) :
  snd (suggest_categories snippet w)
  = mkWorld (config w) (table w) (objects w)
            (outbound w ++ sent_for (config w) snippet)
            (invocations w ++ [snippet]).
Proof.
  run_provider. unfold sent_for, openai_call, claude_post.
  destruct (String.eqb (AI_PROVIDER (config w)) "openai").
  - split_cases; reflexivity.
  - destruct (String.eqb (AI_PROVIDER (config w)) "claude").
    + split_cases; reflexivity.
    + cbn [snd]. now rewrite app_nil_r.
Qed.

(** With the second backend selected, the provider returns a sequence
    in two cases only: the status is not 200 and the sequence is empty
    (the body is not read), or the status is 200, the body is an
    object whose ["content"] is a string, and the sequence is made of
    the stripped, non-empty pieces of that string. *)
Theorem claude_outcome (snippet : string) (w : World) (suggested : list string) :
  AI_PROVIDER (config w) = "claude" ->
  fst (suggest_categories snippet w) = Ok suggested <->
  exists response,
    http_backend (outbound w) (claude_post (config w) snippet) = Ok response /\
    ((status_code response <> 200 /\ suggested = []) \/
     (status_code response = 200 /\
      exists d s,
        json_ response = Ok (JDict d) /\
        assoc "content" d = Some (JStr s) /\
        suggested = stripped (PyStr.split PyStr.comma s))).
Proof.
  intros Hc. run_provider. rewrite Hc.
  change (String.eqb "claude" "openai") with false.
  change (String.eqb "claude" "claude") with true.
  cbv beta iota. cbn [config table objects outbound invocations].
  fold (claude_post (config w) snippet).
  destruct (http_backend (outbound w) (claude_post (config w) snippet))
    as [response|e].
  - destruct (Z.eqb_spec (status_code response) 200) as [H200|H200].
    + destruct (json_ response) as [body|e] eqn:Hbody.
      * destruct body as [| | | |l|d]; cbn [getitem_str fst];
          try (split; [discriminate |
                       intros [r [Hr [[Hne _]|[_ [d' [s' [Hd _]]]]]]];
                       inversion Hr; subst; congruence]).
        destruct (assoc "content" d) as [v|] eqn:Hv; cbn [fst].
        -- destruct v as [| | |s|l|d']; cbn [split_comma fst];
             try (split; [discriminate |
                          intros [r [Hr [[Hne _]|[_ [d2 [s2 [Hd [Hs _]]]]]]]];
                          inversion Hr; subst; congruence]).
           split.
           ++ intros H. inversion H; subst. exists response.
              split; [reflexivity|]. right. split; [assumption|].
              exists d, s. repeat split; assumption.
           ++ intros [r [Hr [[Hne _]|[_ [d2 [s2 [Hd [Hs ->]]]]]]]];
                inversion Hr; subst; [congruence|].
              rewrite Hbody in Hd. inversion Hd; subst.
              rewrite Hv in Hs. inversion Hs; subst. reflexivity.
        -- split; [discriminate|].
           intros [r [Hr [[Hne _]|[_ [d2 [s2 [Hd [Hs _]]]]]]]];
             inversion Hr; subst; [congruence|].
           rewrite Hbody in Hd. inversion Hd; subst. congruence.
      * cbn [fst]. split; [discriminate|].
        intros [r [Hr [[Hne _]|[_ [d2 [s2 [Hd _]]]]]]];
          inversion Hr; subst; congruence.
    + cbn [fst]. split.
      * intros H. inversion H; subst. exists response.
        split; [reflexivity|]. left. split; [assumption | reflexivity].
      * intros [r [Hr [[_ ->]|[Heq _]]]]; inversion Hr; subst;
          [reflexivity | congruence].
  - cbn [fst]. split; [discriminate|]. intros [r [Hr _]]. discriminate.
Qed.

(** With the first backend selected, the provider returns a sequence
    exactly when the client hands back an object whose ["choices"] is a
    list, the first element of it an object whose ["message"] is an
    object whose ["content"] is a string; the sequence is then made of
    the stripped, non-empty pieces of that string. *)
Theorem openai_outcome (snippet : string) (w : World) (suggested : list string) :
  AI_PROVIDER (config w) = "openai" ->
  fst (suggest_categories snippet w) = Ok suggested <->
  exists d rest c m s,
    openai_backend (outbound w) (openai_call (config w) snippet) = Ok (JDict d) /\
    assoc "choices" d = Some (JList (JDict c :: rest)) /\
    assoc "message" c = Some (JDict m) /\
    assoc "content" m = Some (JStr s) /\
    suggested = stripped (PyStr.split PyStr.comma s).
Proof.
  intros Hc. run_provider. rewrite Hc.
  change (String.eqb "openai" "openai") with true.
  cbv beta iota. cbn [config table objects outbound invocations].
  fold (openai_call (config w) snippet).
  split.
  - destruct (openai_backend (outbound w) (openai_call (config w) snippet))
      as [response|e]; [|discriminate].
    destruct response as [| | | | |d]; cbn [getattr fst]; try discriminate.
    destruct (assoc "choices" d) as [choices|] eqn:Hchoices;
      cbn [fst]; [|discriminate].
    destruct choices as [| | |s0|l|d0]; cbn [getitem_int fst];
      try discriminate.
    { destruct (String.get 0 s0); cbn [getattr fst]; discriminate. }
    destruct l as [|first rest]; cbn [nth_error fst]; [discriminate|].
    destruct first as [| | | | |c]; cbn [getattr fst]; try discriminate.
    destruct (assoc "message" c) as [message|] eqn:Hmessage;
      cbn [fst]; [|discriminate].
    destruct message as [| | | | |m]; cbn [getitem_str fst]; try discriminate.
    destruct (assoc "content" m) as [v|] eqn:Hcontent;
      cbn [fst]; [|discriminate].
    destruct v as [| | |s| |]; cbn [split_comma fst]; try discriminate.
    intros H. inversion H; subst.
    exists d, rest, c, m, s. repeat split; assumption.
  - intros [d [rest [c [m [s [Hb [Hchoices [Hmessage [Hcontent ->]]]]]]]]].
    rewrite Hb. cbn [getattr]. rewrite Hchoices.
    cbn [getitem_int nth_error getattr]. rewrite Hmessage.
    cbn [getitem_str]. rewrite Hcontent. reflexivity.
Qed.

(** ** More on the record store *)

Lemma present_find_dec (i : Z) (t : Table) : present i t \/ ~ present i t.
Proof.
  unfold present. induction t as [|r t IH]; simpl; [tauto|].
  destruct (has_id i r) eqn:Hr.
  - left. left. now apply has_id_true.
  - destruct IH as [IH|IH]; [tauto|]. right. intros [Heq|Hin]; [|tauto].
    apply has_id_true in Heq. congruence.
Qed.

Lemma get_present_run
    (c : Config) (t : Table) (sent : list Outbound) (inv : list string)
    (i : Z) (old : models.ContentExample) :
  find (has_id i) t = Some old ->
  get_content_example i (request_start c t sent inv)
  = (Ok (Some 0%nat), mkWorld c t [(Persistent, old)] sent inv).
Proof.
  intros Hfind.
  unfold get_content_example, query_filter_id_first, request_start.
  cbn [table objects]. now rewrite Hfind.
Qed.

Lemma get_absent_run (i : Z) (w : World) :
  find (has_id i) (table w) = None ->
  get_content_example i w = (Ok None, w).
Proof.
  intros Hfind. unfold get_content_example, query_filter_id_first.
  now rewrite Hfind.
Qed.

Lemma update_present_run
    (c : Config) (t : Table) (sent : list Outbound) (inv : list string)
    (i : Z) (example : schemas.ContentExampleCreate)
    (old : models.ContentExample) :
  find (has_id i) t = Some old ->
  update_content_example i example (request_start c t sent inv)
  = (Ok (Some 0%nat),
     mkWorld c (write_row (record_of i example) t)
             [(Persistent, record_of i example)] sent inv).
Proof.
  intros Hfind.
  assert (Hid : models.id old = Some i).
  { apply find_some in Hfind as [_ Hold]. now apply has_id_true. }
  assert (Hp : present i t).
  { destruct (present_find_dec i t) as [Hp|Habs]; [exact Hp|].
    apply absent_find in Habs. congruence. }
  unfold update_content_example, bind.
  rewrite (get_present_run c t sent inv i old Hfind).
  unfold setattr, db_commit, db_refresh, set_objects, set_table, ret.
  cbn [table objects config outbound invocations List.length app
       update_nth fst snd flush flush_object nth_error].
  rewrite (assigned_fields i old example Hid).
  replace (row_of (record_of i example)) with (has_id i) by reflexivity.
  rewrite (find_write_row i (record_of i example) t eq_refl Hp). reflexivity.
Qed.

Lemma update_absent_run
    (i : Z) (example : schemas.ContentExampleCreate) (w : World) :
  find (has_id i) (table w) = None ->
  update_content_example i example w = (Ok None, w).
Proof.
  intros Hfind. unfold update_content_example, bind.
  now rewrite (get_absent_run i w Hfind).
Qed.

Lemma delete_present_run
    (c : Config) (t : Table) (sent : list Outbound) (inv : list string)
    (i : Z) (old : models.ContentExample) :
  find (has_id i) t = Some old ->
  delete_content_example i (request_start c t sent inv)
  = (Ok (Some 0%nat), mkWorld c (remove_row old t) [(Detached, old)] sent inv).
Proof.
  intros Hfind. unfold delete_content_example, bind.
  now rewrite (get_present_run c t sent inv i old Hfind).
Qed.

Lemma delete_absent_run (i : Z) (w : World) :
  find (has_id i) (table w) = None ->
  delete_content_example i w = (Ok None, w).
Proof.
  intros Hfind. unfold delete_content_example, bind.
  now rewrite (get_absent_run i w Hfind).
Qed.

Ltac run_store :=
  unfold read_examples, read_example, update_example, delete_example,
    update_content_example, delete_content_example,
    get_content_examples, get_content_example,
    query_offset_limit_all, query_filter_id_first,
    load, setattr, db_delete, db_commit, db_refresh, raise, bind, ret,
    set_objects, set_table;
  cbn [config table objects outbound invocations].

Ltac split_inner :=
  repeat (match goal with
          | |- context [match flush ?t ?os with _ => _ end] =>
              destruct (flush t os) eqn:?
          | |- context [match nth_error ?l ?n with _ => _ end] =>
              destruct (nth_error l n) as [[[] ?]|] eqn:?
          | |- context [match ?x with _ => _ end] =>
              lazymatch x with
              | context [match _ with _ => _ end] => fail
              | _ => destruct x eqn:?
              end
          end;
          cbn [config table objects outbound invocations fst snd]).

(** Listing, reading, updating and deleting stay inside the store: in
    any world and whatever they return, they leave the configuration
    alone, send nothing to a backend and never enter the suggestion
    provider (an update whose payload has no tags included). *)
Theorem store_operations_stay_local
    (w : World) (skip limit i : Z) (example : schemas.ContentExampleCreate) :
  quiet w (snd (read_examples skip limit w)) /\
  quiet w (snd (read_example i w)) /\
  quiet w (snd (update_example i example w)) /\
  quiet w (snd (delete_example i w)).
Proof.
  unfold quiet. run_store.
  repeat split; split_inner; reflexivity.
Qed.

(** Reading an id that is in the store returns the record stored under
    it and leaves the table as it was. *)
Theorem read_returns_the_record
    (c : Config) (t : Table) (sent : list Outbound) (inv : list string)
    (i : Z) (r : models.ContentExample) :
  primary_key t -> In r t -> models.id r = Some i ->
  exists w',
    read_example i (request_start c t sent inv) = (Ok 0%nat, w') /\
    attributes w' 0%nat = Some r /\
    table w' = t.
Proof.
  intros Hpk Hin Hid.
  pose proof (find_unique i t r Hpk Hin Hid) as Hfind.
  unfold read_example, bind.
  rewrite (get_present_run c t sent inv i r Hfind).
  eexists. repeat split.
Qed.

(** Once a delete request for an id has run, whatever it answered, the
    id is gone: read, update and delete on it answer not-found in the
    next request and change nothing. *)
Theorem deleted_id_stays_gone
    (c : Config) (t : Table) (sent : list Outbound) (inv : list string)
    (i : Z) (example : schemas.ContentExampleCreate) :
  let later := next_request (delete_example i (request_start c t sent inv)) in
  read_example i later = (Raise not_found, later) /\
  update_example i example later = (Raise not_found, later) /\
  delete_example i later = (Raise not_found, later).
Proof.
  intros later.
  assert (Hgone : find (has_id i) (table later) = None).
  { unfold later, next_request, delete_example, bind.
    destruct (find (has_id i) t) as [old|] eqn:Hfind.
    - rewrite (delete_present_run c t sent inv i old Hfind).
      cbn [snd table request_start].
      apply find_remove_row.
      apply find_some in Hfind as [_ Hold]. now apply has_id_true.
    - rewrite (delete_absent_run i (request_start c t sent inv) Hfind).
      exact Hfind. }
  unfold read_example, update_example, delete_example, bind.
  rewrite (update_absent_run i example later Hgone),
    (delete_absent_run i later Hgone), (get_absent_run i later Hgone).
  repeat split.
Qed.

Lemma write_row_twice (i : Z) (a b : models.ContentExample) (t : Table) :
  models.id a = Some i -> models.id b = Some i ->
  write_row b (write_row a t) = write_row b t.
Proof.
  intros Ha Hb. unfold write_row, row_of. rewrite Ha, Hb.
  rewrite map_map. apply map_ext. intros r.
  destruct (has_id i r) eqn:Hr; [|now rewrite Hr].
  apply has_id_true in Ha. now rewrite Ha.
Qed.

(** Two updates of the same id in a row leave the table that the
    second one alone would leave: the last writer wins, whether the id
    is in the store or not. *)
Theorem last_update_wins
    (c : Config) (t : Table) (sent : list Outbound) (inv : list string)
    (i : Z) (first second : schemas.ContentExampleCreate) :
  table (snd (update_example i second
                (next_request (update_example i first
                                 (request_start c t sent inv)))))
  = table (snd (update_example i second (request_start c t sent inv))).
Proof.
  unfold next_request, update_example, bind.
  destruct (find (has_id i) t) as [old|] eqn:Hfind.
  - assert (Hp : present i t).
    { destruct (present_find_dec i t) as [Hp|Habs]; [exact Hp|].
      apply absent_find in Habs. congruence. }
    rewrite !(update_present_run c t sent inv i _ old Hfind).
    unfold ret. cbn [snd config table outbound invocations].
    rewrite (update_present_run c _ sent inv i second (record_of i first)
               (find_write_row i (record_of i first) t eq_refl Hp)).
    cbn [snd table]. now apply (write_row_twice i).
  - rewrite !(update_absent_run i _ (request_start c t sent inv) Hfind).
    unfold raise. cbn [snd config table outbound invocations request_start].
    reflexivity.
Qed.

(** ** Creation, keys and pages *)

(** The two ways a create request can end: one row more, made of the
    payload under the new id, or an exception and the table as it was. *)
Lemma create_example_cases
    (c : Config) (t : Table) (sent : list Outbound) (inv : list string)
    (example : schemas.ContentExampleCreate) :
  exists sent' inv',
    (exists tags,
        let row := record_of (new_id t)
                     (schemas.Build (schemas.title example)
                                    (schemas.source_url example)
                                    (schemas.content_snippet example)
                                    (schemas.notes example) tags) in
        create_example example (request_start c t sent inv)
        = (Ok 0%nat, mkWorld c (t ++ [row]) [(Persistent, row)] sent' inv')) \/
    (exists e,
        create_example example (request_start c t sent inv)
        = (Raise e, mkWorld c t [] sent' inv')).
Proof.
  destruct (truthy_list (schemas.tags example)) eqn:Htags.
  - exists sent, inv. left. exists (schemas.tags example).
    rewrite (create_example_tagged example _ Htags).
    now rewrite create_content_example_run.
  - destruct (suggest_categories_world (schemas.content_snippet example)
                (request_start c t sent inv)) as [sent' [_ Hw1]].
    cbn [request_start config table objects outbound invocations] in Hw1.
    rewrite (create_example_untagged example _ Htags).
    destruct (suggest_categories _ _) as [[suggested|e] w1];
      cbn [snd] in Hw1; subst w1; do 2 eexists.
    + left. exists (Some suggested).
      change (mkWorld c t [] ?s ?i) with (request_start c t s i).
      now rewrite create_content_example_run.
    + right. exists e. reflexivity.
Qed.


Lemma well_keyed_append (t : Table) (example : schemas.ContentExampleCreate) :
  well_keyed t -> well_keyed (t ++ [record_of (new_id t) example]).
Proof.
  intros [Hpk Hsome]. split.
  - now apply primary_key_kept.
  - rewrite map_app, in_app_iff. cbn [map In record_of models.id].
    intros [Hin|[Heq|[]]]; [tauto | discriminate].
Qed.

Lemma well_keyed_write (t : Table) (o : models.ContentExample) :
  well_keyed t -> well_keyed (write_row o t).
Proof.
  intros [Hpk Hsome]. split.
  - now apply primary_key_kept.
  - now rewrite write_row_ids.
Qed.

Lemma well_keyed_remove (t : Table) (o : models.ContentExample) :
  well_keyed t -> well_keyed (remove_row o t).
Proof.
  intros [Hpk Hsome]. split.
  - now apply remove_row_keyed.
  - intros Hin. apply Hsome.
    apply in_map_iff in Hin as [r [Hid Hr]].
    apply filter_In in Hr as [Hr _].
    rewrite <- Hid. now apply in_map.
Qed.

(** The handlers that write keep the table keyed: when every row has
    an id and no two rows share one, the same holds after a create, an
    update or a delete request, whatever the request returned. *)
Theorem writes_keep_the_table_keyed
    (c : Config) (t : Table) (sent : list Outbound) (inv : list string)
    (i : Z) (example : schemas.ContentExampleCreate) :
  well_keyed t ->
  well_keyed (table (snd (create_example example (request_start c t sent inv)))) /\
  well_keyed (table (snd (update_example i example (request_start c t sent inv)))) /\
  well_keyed (table (snd (delete_example i (request_start c t sent inv)))).
Proof.
  intros Hkeyed. split; [|split].
  - destruct (create_example_cases c t sent inv example)
      as [sent' [inv' [[tags Hrun]|[e Hrun]]]]; cbv zeta in Hrun; rewrite Hrun;
      cbn [snd table]; [now apply well_keyed_append | exact Hkeyed].
  - unfold update_example, bind.
    destruct (find (has_id i) t) as [old|] eqn:Hfind.
    + rewrite (update_present_run c t sent inv i example old Hfind).
      now apply well_keyed_write.
    + rewrite (update_absent_run i example (request_start c t sent inv) Hfind).
      exact Hkeyed.
  - unfold delete_example, bind.
    destruct (find (has_id i) t) as [old|] eqn:Hfind.
    + rewrite (delete_present_run c t sent inv i old Hfind).
      now apply well_keyed_remove.
    + rewrite (delete_absent_run i (request_start c t sent inv) Hfind).
      exact Hkeyed.
Qed.

(** A record that was created is found again: a read of the new id in
    the next request returns the record made of the payload, and every
    other id leads to what it led to before the creation. *)
Theorem created_record_is_found
    (c : Config) (t : Table) (sent : list Outbound) (inv : list string)
    (example : schemas.ContentExampleCreate) :
  let later := next_request (create_content_example example
                               (request_start c t sent inv)) in
  (exists w',
      read_example (new_id t) later = (Ok 0%nat, w') /\
      attributes w' 0%nat = Some (record_of (new_id t) example) /\
      table w' = table later) /\
  (forall j, j <> new_id t ->
             find (has_id j) (table later) = find (has_id j) t).
Proof.
  intros later.
  assert (Hlater : later
                   = request_start c (t ++ [record_of (new_id t) example])
                                   sent inv).
  { unfold later, next_request. now rewrite create_content_example_run. }
  pose proof (new_id_fresh t) as Hfresh. apply absent_find in Hfresh.
  assert (Hown : has_id (new_id t) (record_of (new_id t) example) = true)
    by now apply has_id_true.
  rewrite Hlater. split.
  - unfold read_example, bind.
    rewrite (get_present_run c _ sent inv (new_id t)
               (record_of (new_id t) example)).
    + eexists. repeat split.
    + rewrite find_append, Hfresh. cbn [find]. now rewrite Hown.
  - intros j Hj. cbn [table request_start]. rewrite find_append.
    destruct (find (has_id j) t); [reflexivity|].
    cbn [find].
    destruct (has_id j (record_of (new_id t) example)) eqn:E; [|reflexivity].
    apply has_id_true in E. cbn [record_of models.id] in E. congruence.
Qed.

Lemma listed_rows (skip limit : Z) (w : World) :
  rows_of (read_examples skip limit w)
  = map Some (offset_limit skip limit (table w)).
Proof.
  unfold rows_of, read_examples, get_content_examples,
    query_offset_limit_all, load, attributes, set_objects.
  cbn [fst snd objects]. apply attributes_loaded.
Qed.

Lemma firstn_then_more {A : Type} (m k : nat) (l : list A) :
  firstn m l ++ firstn k (skipn m l) = firstn (m + k) l.
Proof.
  revert l. induction m as [|m IH]; intros l; [reflexivity|].
  destruct l as [|a l]; cbn [firstn skipn Nat.add app].
  - now rewrite firstn_nil.
  - now rewrite IH.
Qed.

(** Consecutive pages tile the table: the page of [M] records at
    offset [N] followed by the page of [K] records at offset [N + M]
    is the page of [M + K] records at offset [N]; no record is listed
    twice and none is skipped. *)
Theorem pages_tile (w : World) (N M K : Z) :
  0 <= N -> 0 <= M -> 0 <= K ->
  rows_of (read_examples N M w) ++ rows_of (read_examples (N + M) K w)
  = rows_of (read_examples N (M + K) w).
Proof.
  intros HN HM HK. rewrite !listed_rows, <- map_app. f_equal.
  unfold offset_limit.
  replace (M <? 0) with false by (symmetry; apply Z.ltb_ge; lia).
  replace (K <? 0) with false by (symmetry; apply Z.ltb_ge; lia).
  replace (M + K <? 0) with false by (symmetry; apply Z.ltb_ge; lia).
  rewrite !Z2Nat.inj_add by lia.
  replace (skipn (Z.to_nat N + Z.to_nat M) (table w))
    with (skipn (Z.to_nat M) (skipn (Z.to_nat N) (table w)))
    by (rewrite skipn_skipn; f_equal; lia).
  apply firstn_then_more.
Qed.

(** A page from offset 0 that is at least as long as the table lists
    the whole table, in table order (the default page of the API,
    offset 0 and limit 100, for a table of at most 100 records). *)
Theorem wide_page_lists_everything (w : World) (limit : Z) :
  Z.of_nat (List.length (table w)) <= limit ->
  rows_of (read_examples 0 limit w) = map Some (table w).
Proof.
  intros Hwide. rewrite listed_rows. f_equal. unfold offset_limit.
  replace (limit <? 0) with false by (symmetry; apply Z.ltb_ge; lia).
  cbn [Z.to_nat skipn]. apply firstn_all2. lia.
Qed.


End Service.

(** ** Concrete runs *)

Lemma rowid_bound (t : Table) (r : models.ContentExample) (j : Z) :
  In r t -> models.id r = Some j ->
  j <= fold_right (fun r m => Z.max (the 0 (models.id r)) m) 0 t.
Proof.
  induction t as [|a t IH]; simpl; [tauto|].
  intros [->|Hin] Hid.
  - rewrite Hid. simpl. lia.
  - specialize (IH Hin Hid). lia.
Qed.

(** Numbering one above the largest id never reuses an id of the table. *)
Lemma rowid_next_fresh (t : Table) :
  ~ In (Some (rowid_next t)) (map models.id t).
Proof.
  intros Hin. apply in_map_iff in Hin as [r [Hid Hr]].
  pose proof (rowid_bound t r _ Hr Hid) as Hle.
  unfold rowid_next in Hle. lia.
Qed.

Lemma sample_table_keyed : primary_key sample_table.
Proof.
  unfold primary_key, sample_table. simpl.
  repeat (constructor; [simpl; intuition discriminate|]). constructor.
Qed.

(** C2, the claim as stated fails: the one-element sequence holding the
    empty tag has no comma in it, and it encodes to the empty string,
    which decodes to the empty sequence. *)
Lemma tag_codec_loses_single_empty_tag :
  Forall comma_free [""] /\
  tags_to_str (Some [""]) = "" /\
  str_to_tags (Some (tags_to_str (Some [""]))) = [] /\
  str_to_tags (Some (tags_to_str (Some [""]))) <> [""].
Proof.
  split; [repeat constructor|].
  split; [reflexivity|]. split; [reflexivity | discriminate].
Qed.

Lemma tag_codec_round_trip_witness :
  Forall comma_free ["x"; "y"] /\ ["x"; "y"] <> [""] /\
  str_to_tags (Some (tags_to_str (Some ["x"; "y"]))) = ["x"; "y"].
Proof.
  assert (Hfree : Forall comma_free ["x"; "y"]) by (repeat constructor).
  assert (Hne : ["x"; "y"] <> [""]) by discriminate.
  split; [exact Hfree|]. split; [exact Hne|].
  exact (tag_codec_round_trip ["x"; "y"] Hfree Hne).
Defined.




Lemma absent_tags_ask_provider_once_witness :
  untagged payload_untagged /\
  invocations (snd (create_example rowid_next openai_down backend_tags
                      payload_untagged
                      (request_start claude_config sample_table [] [])))
  = ["about cats and dogs"] /\
  exists w',
    create_example rowid_next openai_down backend_tags payload_untagged
      (request_start claude_config sample_table [] []) = (Ok 0%nat, w') /\
    table w'
    = sample_table ++ [record_of 4 (with_tags ["animals"; "pets"] payload_untagged)] /\
    attributes w' 0%nat
    = Some (record_of 4 (with_tags ["animals"; "pets"] payload_untagged)) /\
    models.tags (record_of 4 (with_tags ["animals"; "pets"] payload_untagged))
    = Some (tags_to_str (Some ["animals"; "pets"])) /\
    str_to_tags (models.tags
                   (record_of 4 (with_tags ["animals"; "pets"] payload_untagged)))
    = ["animals"; "pets"] /\
    outbound w'
    = outbound (snd (suggest_categories openai_down backend_tags
                       "about cats and dogs"
                       (request_start claude_config sample_table [] []))) /\
    (List.length (outbound w') <= 0 + 1)%nat.
Proof.
  assert (Hu : untagged payload_untagged) by (right; reflexivity).
  split; [exact Hu|].
  destruct (absent_tags_ask_provider_once rowid_next rowid_next_fresh
              openai_down backend_tags claude_config sample_table [] []
              payload_untagged Hu) as [Hentered Hstored].
  split; [exact Hentered|].
  exact (Hstored ["animals"; "pets"] _ eq_refl).
Defined.

Lemma absent_id_not_found_witness :
  ~ present 7 sample_table /\
  get_content_example 7 (request_start claude_config sample_table [] [])
  = (Ok None, request_start claude_config sample_table [] []) /\
  delete_example rowid_next 7 (request_start claude_config sample_table [] [])
  = (Raise not_found, request_start claude_config sample_table [] []).
Proof.
  assert (Habs : ~ present 7 sample_table).
  { unfold present. simpl. intuition discriminate. }
  split; [exact Habs|].
  destruct (absent_id_not_found rowid_next
              (request_start claude_config sample_table [] []) 7
              payload_bare Habs) as [Hget [_ [_ [_ [_ Hdel]]]]].
  split; [exact Hget | exact Hdel].
Defined.


Lemma delete_returns_and_removes_witness :
  primary_key sample_table /\ In row2 sample_table /\
  models.id row2 = Some 2 /\
  exists w',
    delete_content_example rowid_next 2
      (request_start claude_config sample_table [] []) = (Ok (Some 0%nat), w') /\
    attributes w' 0%nat = Some row2 /\
    ~ present 2 (table w').
Proof.
  assert (Hin : In row2 sample_table) by (right; left; reflexivity).
  split; [exact sample_table_keyed|]. split; [exact Hin|].
  split; [reflexivity|].
  destruct (delete_returns_and_removes rowid_next claude_config sample_table
              [] [] 2 row2 sample_table_keyed Hin eq_refl)
    as [w' [Hrun [_ [Hattr [_ [Hgone _]]]]]].
  exists w'. split; [exact Hrun|]. split; [exact Hattr | exact Hgone].
Defined.

Lemma list_is_a_window_of_the_table_witness :
  0 <= 1 /\ 0 < 5 /\
  exists refs w',
    get_content_examples 1 5 (request_start claude_config sample_table [] [])
    = (Ok refs, w') /\
    map (attributes w') refs = [Some row2; Some row3].
Proof.
  assert (H0 : 0 <= 1) by discriminate.
  assert (H1 : 0 < 5) by reflexivity.
  split; [exact H0|]. split; [exact H1|].
  destruct (list_is_a_window_of_the_table rowid_next rowid_next_fresh
              (request_start claude_config sample_table [] []) 1 5 H0 H1)
    as [refs [w' [Hrun [_ [_ [Hrows _]]]]]].
  exists refs, w'. split; [exact Hrun | exact Hrows].
Defined.

Lemma unknown_backend_suggests_nothing_witness :
  AI_PROVIDER other_config <> "openai" /\
  AI_PROVIDER other_config <> "claude" /\
  exists w',
    suggest_categories openai_down backend_down "hello"
      (request_start other_config sample_table [] []) = (Ok [], w') /\
    outbound w' = [] /\
    table w' = sample_table /\
    objects w' = [].
Proof.
  assert (Ho : AI_PROVIDER other_config <> "openai") by discriminate.
  assert (Hc : AI_PROVIDER other_config <> "claude") by discriminate.
  split; [exact Ho|]. split; [exact Hc|].
  exact (unknown_backend_suggests_nothing openai_down backend_down "hello"
           (request_start other_config sample_table [] []) Ho Hc).
Defined.

(** ** Concrete runs of the further properties *)

Lemma sample_table_well_keyed : well_keyed sample_table.
Proof.
  split; [exact sample_table_keyed|].
  unfold sample_table. simpl. intuition discriminate.
Qed.

Lemma round_trip_fragments_witness :
  ["a,b"; "c"] <> [""] /\
  str_to_tags (Some (tags_to_str (Some ["a,b"; "c"]))) = ["a"; "b"; "c"].
Proof.
  assert (Hne : ["a,b"; "c"] <> [""]) by discriminate.
  split; [exact Hne|].
  exact (round_trip_fragments ["a,b"; "c"] Hne).
Defined.

Lemma suggested_tags_tidy_witness :
  fst (suggest_categories openai_tags backend_down "hello"
         (request_start openai_config sample_table [] []))
  = Ok ["animals"; "pets"] /\
  Forall tidy ["animals"; "pets"].
Proof.
  split; [reflexivity|].
  exact (suggested_tags_tidy openai_tags backend_down "hello"
           (request_start openai_config sample_table [] [])
           ["animals"; "pets"] eq_refl).
Defined.

Lemma claude_outcome_witness :
  AI_PROVIDER claude_config = "claude" /\
  fst (suggest_categories openai_down backend_tags "about cats and dogs"
         (request_start claude_config sample_table [] []))
  = Ok ["animals"; "pets"].
Proof.
  split; [reflexivity|].
  apply (proj2 (claude_outcome openai_down backend_tags "about cats and dogs"
                  (request_start claude_config sample_table [] [])
                  ["animals"; "pets"] eq_refl)).
  exists (mkResponse 200 (Ok (JDict [("content", JStr "animals, pets")]))).
  split; [reflexivity|]. right. split; [reflexivity|].
  exists [("content", JStr "animals, pets")], "animals, pets".
  repeat split.
Defined.

Lemma openai_outcome_witness :
  AI_PROVIDER openai_config = "openai" /\
  fst (suggest_categories openai_tags backend_down "about cats and dogs"
         (request_start openai_config sample_table [] []))
  = Ok ["animals"; "pets"].
Proof.
  split; [reflexivity|].
  apply (proj2 (openai_outcome openai_tags backend_down "about cats and dogs"
                  (request_start openai_config sample_table [] [])
                  ["animals"; "pets"] eq_refl)).
  exists [("choices",
           JList [JDict [("message",
                          JDict [("content", JStr " animals ,pets,, ")])]])],
    [], [("message", JDict [("content", JStr " animals ,pets,, ")])],
    [("content", JStr " animals ,pets,, ")], " animals ,pets,, ".
  repeat split.
Defined.


Lemma writes_keep_the_table_keyed_witness :
  well_keyed sample_table /\
  well_keyed (table (snd (create_example rowid_next openai_down backend_tags
                            payload_untagged
                            (request_start claude_config sample_table [] [])))) /\
  well_keyed (table (snd (update_example rowid_next 2 payload_untagged
                            (request_start claude_config sample_table [] [])))) /\
  well_keyed (table (snd (delete_example rowid_next 2
                            (request_start claude_config sample_table [] [])))).
Proof.
  split; [exact sample_table_well_keyed|].
  exact (writes_keep_the_table_keyed rowid_next rowid_next_fresh openai_down
           backend_tags claude_config sample_table [] [] 2 payload_untagged
           sample_table_well_keyed).
Defined.

Lemma created_record_is_found_witness :
  (forall t, ~ In (Some (rowid_next t)) (map models.id t)) /\
  exists w',
    read_example 4 (request_start claude_config
                      (sample_table ++ [record_of 4 payload_bare]) [] [])
    = (Ok 0%nat, w') /\
    attributes w' 0%nat = Some (record_of 4 payload_bare).
Proof.
  split; [exact rowid_next_fresh|].
  destruct (created_record_is_found rowid_next rowid_next_fresh claude_config
              sample_table [] [] payload_bare) as [[w' [Hread [Hattr _]]] _].
  exists w'. split; [exact Hread | exact Hattr].
Defined.

Lemma pages_tile_witness :
  0 <= 0 /\ 0 <= 1 /\ 0 <= 2 /\
  rows_of (read_examples 0 1 (request_start claude_config sample_table [] []))
  ++ rows_of (read_examples (0 + 1) 2
                (request_start claude_config sample_table [] []))
  = [Some row1; Some row2; Some row3].
Proof.
  assert (H0 : 0 <= 0) by discriminate.
  assert (H1 : 0 <= 1) by discriminate.
  assert (H2 : 0 <= 2) by discriminate.
  split; [exact H0|]. split; [exact H1|]. split; [exact H2|].
  exact (pages_tile (request_start claude_config sample_table [] [])
           0 1 2 H0 H1 H2).
Defined.

Lemma wide_page_lists_everything_witness :
  Z.of_nat (List.length sample_table) <= 100 /\
  rows_of (read_examples 0 100 (request_start claude_config sample_table [] []))
  = [Some row1; Some row2; Some row3].
Proof.
  assert (Hwide : Z.of_nat (List.length sample_table) <= 100) by discriminate.
  split; [exact Hwide|].
  exact (wide_page_lists_everything
           (request_start claude_config sample_table [] []) 100 Hwide).
Defined.

Lemma read_returns_the_record_witness :
  primary_key sample_table /\ In row3 sample_table /\
  models.id row3 = Some 3 /\
  exists w',
    read_example 3 (request_start claude_config sample_table [] [])
    = (Ok 0%nat, w') /\
    attributes w' 0%nat = Some row3 /\
    table w' = sample_table.
Proof.
  assert (Hin : In row3 sample_table) by (right; right; left; reflexivity).
  split; [exact sample_table_keyed|]. split; [exact Hin|].
  split; [reflexivity|].
  exact (read_returns_the_record claude_config sample_table [] [] 3 row3
           sample_table_keyed Hin eq_refl).
Defined.
